(** * Lottery.sol: the lottery contract as a state machine

    A shallow embedding of [contracts/Lottery.sol] (Solidity ^0.8.7).

    - [uint256] and [address] values are naturals ([N]).  The only arithmetic
      of the contract that can leave the range is the subtraction in
      [checkUpkeep], which Solidity 0.8 checks (Panic 0x11); the modulo in
      [fulfillRandomWords] panics on a zero divisor (0x12) and array reads
      panic out of range (0x32).  These are written out below.
    - A call runs in a [Frame]: the storage of the contract (with its own
      balance) and the effects of the transaction so far (events, calls to
      other contracts).  A revert drops the frame: [transact] commits the
      storage only when the call returns.
    - The VRF coordinator and the recipient of the prize are other contracts.
      What they answer is part of the environment of a call ([Env]), next to
      [block.timestamp], [msg.sender] and [msg.value]. *)

From Stdlib Require Import NArith ZArith List Bool Lia.
Import ListNotations.
Local Open Scope N_scope.

(** ** Values *)

Definition uint256 := N.
Definition address := N.

(** An explicit conversion to a narrower unsigned type, as in
    [uint64(_subscriptionId)], keeps the low bits. *)
Definition truncate (bits x : N) : N := x mod 2 ^ bits.

Inductive LotteryState := OPEN | CALCULATING.

(** [uint256(s_lotteryState)] *)
Definition LotteryState_to_uint (s : LotteryState) : uint256 :=
  match s with OPEN => 0 | CALCULATING => 1 end.

Definition LotteryState_eqb (a b : LotteryState) : bool :=
  match a, b with
  | OPEN, OPEN | CALCULATING, CALCULATING => true
  | _, _ => false
  end.

(** ** Errors *)

Inductive PanicCode :=
| ArithmeticOverflow   (* 0x11 *)
| DivisionByZero       (* 0x12 *)
| IndexOutOfBounds.    (* 0x32 *)

Inductive Error :=
| Lottery__NotEnoughETHEntered
| Lottery__TransferFailed
| Lottery__NotOpen
| Lottery__UpkeepNotNeeded (currentBalance numPlayers lotteryState : uint256)
| Panic (code : PanicCode).

Inductive Result (A : Type) :=
| Ok (a : A)
| Revert (e : Error).
Arguments Ok {A} a.
Arguments Revert {A} e.

(** ** Storage *)

Definition REQUEST_CONFIRMATIONS : N := 3.
Definition NUM_WORDS : N := 1.

Record Lottery := mkLottery {
  i_entranceFee : uint256;
  s_players : list address;
  i_vrfCoordinator : address;
  i_gasLane : N;
  i_subscriptionId : N;
  i_callbackGasLimit : N;
  s_recentWinner : address;
  s_lotteryState : LotteryState;
  s_lastTimestamp : uint256;
  i_interval : uint256;
  (** [address(this).balance] *)
  this_balance : uint256
}.

Definition set_players (v : list address) (s : Lottery) : Lottery :=
  mkLottery (i_entranceFee s) v (i_vrfCoordinator s) (i_gasLane s)
    (i_subscriptionId s) (i_callbackGasLimit s) (s_recentWinner s)
    (s_lotteryState s) (s_lastTimestamp s) (i_interval s) (this_balance s).

Definition set_recentWinner (v : address) (s : Lottery) : Lottery :=
  mkLottery (i_entranceFee s) (s_players s) (i_vrfCoordinator s) (i_gasLane s)
    (i_subscriptionId s) (i_callbackGasLimit s) v
    (s_lotteryState s) (s_lastTimestamp s) (i_interval s) (this_balance s).

Definition set_lotteryState (v : LotteryState) (s : Lottery) : Lottery :=
  mkLottery (i_entranceFee s) (s_players s) (i_vrfCoordinator s) (i_gasLane s)
    (i_subscriptionId s) (i_callbackGasLimit s) (s_recentWinner s)
    v (s_lastTimestamp s) (i_interval s) (this_balance s).

Definition set_lastTimestamp (v : uint256) (s : Lottery) : Lottery :=
  mkLottery (i_entranceFee s) (s_players s) (i_vrfCoordinator s) (i_gasLane s)
    (i_subscriptionId s) (i_callbackGasLimit s) (s_recentWinner s)
    (s_lotteryState s) v (i_interval s) (this_balance s).

Definition set_balance (v : uint256) (s : Lottery) : Lottery :=
  mkLottery (i_entranceFee s) (s_players s) (i_vrfCoordinator s) (i_gasLane s)
    (i_subscriptionId s) (i_callbackGasLimit s) (s_recentWinner s)
    (s_lotteryState s) (s_lastTimestamp s) (i_interval s) v.

(** ** Effects of a transaction *)

Inductive Event :=
| LotteryEnter (player : address)
| RequestLotteryWinner (requestId : uint256)
| WinnerPicked (winner : address).

Inductive Effect :=
| Emit (e : Event)
(** [coordinator.requestRandomWords(keyHash, subId, confirmations, gasLimit, numWords)] *)
| RequestRandomWords (coordinator : address)
    (keyHash subId confirmations gasLimit numWords : N)
(** [to.call{value: value}("")] that succeeded *)
| CallValue (to : address) (value : uint256).

(** ** Environment of a call *)

Record Env := mkEnv {
  block_timestamp : uint256;
  msg_sender : address;
  msg_value : uint256;
  (** the identifier the coordinator returns for a request *)
  vrf_requestRandomWords : address -> N -> N -> N -> N -> N -> uint256;
  (** whether [to.call{value: v}("")] succeeds *)
  call_succeeds : address -> uint256 -> bool
}.

(** ** The monad of contract code *)

Record Frame := mkFrame {
  this : Lottery;
  effects : list Effect
}.

Definition M (A : Type) : Type := Frame -> Result (A * Frame).

Definition ret {A} (a : A) : M A := fun f => Ok (a, f).

Definition bind {A B} (m : M A) (k : A -> M B) : M B :=
  fun f => match m f with
           | Ok (a, f') => k a f'
           | Revert e => Revert e
           end.

Definition revert {A} (e : Error) : M A := fun _ => Revert e.

Definition gets {A} (proj : Lottery -> A) : M A := fun f => Ok (proj (this f), f).

Definition modify (upd : Lottery -> Lottery) : M unit :=
  fun f => Ok (tt, mkFrame (upd (this f)) (effects f)).

Definition perform (e : Effect) : M unit :=
  fun f => Ok (tt, mkFrame (this f) (effects f ++ [e])).

Definition emit (e : Event) : M unit := perform (Emit e).

Declare Scope sol_scope.
Delimit Scope sol_scope with sol.
Notation "x <- m ;; k" := (bind m (fun x => k))
  (at level 61, m at next level, right associativity) : sol_scope.
Notation "m ;; k" := (bind m (fun _ => k))
  (at level 61, right associativity) : sol_scope.
Local Open Scope sol_scope.

(** [a - b] on [uint256], checked *)
Definition checked_sub (a b : uint256) : M uint256 :=
  if a <? b then revert (Panic ArithmeticOverflow) else ret (a - b).

(** [a % b] on [uint256] *)
Definition checked_mod (a b : uint256) : M uint256 :=
  if b =? 0 then revert (Panic DivisionByZero) else ret (a mod b).

(** [xs[i]] *)
Definition index {A} (xs : list A) (i : uint256) : M A :=
  match nth_error xs (N.to_nat i) with
  | Some x => ret x
  | None => revert (Panic IndexOutOfBounds)
  end.

(** [xs.length] *)
Definition len {A} (xs : list A) : uint256 := N.of_nat (length xs).

(** A payable function receives [msg.value] before its body runs. *)
Definition receive_value (env : Env) : M unit :=
  modify (fun s => set_balance (this_balance s + msg_value env) s).

(** [(bool success, ) = to.call{value: v}("")] *)
Definition call_value (env : Env) (to : address) (v : uint256) : M bool :=
  if call_succeeds env to v then
    modify (fun s => set_balance (this_balance s - v) s) ;;
    perform (CallValue to v) ;;
    ret true
  else ret false.

(** ** The contract *)

Definition constructor (env : Env)
    (_vrfCoordinatorV2 : address) (_entranceFee : uint256) (_gasLane : N)
    (_subscriptionId : uint256) (_callbackGasLimit : N) (_interval : uint256)
    : Lottery :=
  {| i_entranceFee := _entranceFee;
     s_players := [];
     i_vrfCoordinator := _vrfCoordinatorV2;
     i_gasLane := _gasLane;
     i_subscriptionId := truncate 64 _subscriptionId;
     i_callbackGasLimit := _callbackGasLimit;
     s_recentWinner := 0;
     s_lotteryState := OPEN;
     s_lastTimestamp := block_timestamp env;
     i_interval := _interval;
     this_balance := 0 |}.

Definition enterLottery (env : Env) : M unit :=
  receive_value env ;;
  fee <- gets i_entranceFee ;;
  if msg_value env <? fee then revert Lottery__NotEnoughETHEntered else
  st <- gets s_lotteryState ;;
  if negb (LotteryState_eqb st OPEN) then revert Lottery__NotOpen else
  players <- gets s_players ;;
  modify (set_players (players ++ [msg_sender env])) ;;
  emit (LotteryEnter (msg_sender env)).

Definition checkUpkeep (env : Env) : M bool :=
  st <- gets s_lotteryState ;;
  let isOpen := LotteryState_eqb OPEN st in
  last <- gets s_lastTimestamp ;;
  elapsed <- checked_sub (block_timestamp env) last ;;
  interval <- gets i_interval ;;
  let timePassed := interval <? elapsed in
  players <- gets s_players ;;
  let hasPlayers := 0 <? len players in
  bal <- gets this_balance ;;
  let hasBalance := 0 <? bal in
  ret (isOpen && timePassed && hasPlayers && hasBalance).

Definition performUpkeep (env : Env) : M unit :=
  upkeepNedded <- checkUpkeep env ;;
  if negb upkeepNedded then
    bal <- gets this_balance ;;
    players <- gets s_players ;;
    st <- gets s_lotteryState ;;
    revert (Lottery__UpkeepNotNeeded bal (len players) (LotteryState_to_uint st))
  else
  modify (set_lotteryState CALCULATING) ;;
  coordinator <- gets i_vrfCoordinator ;;
  gasLane <- gets i_gasLane ;;
  subId <- gets i_subscriptionId ;;
  gasLimit <- gets i_callbackGasLimit ;;
  perform (RequestRandomWords coordinator gasLane subId
             REQUEST_CONFIRMATIONS gasLimit NUM_WORDS) ;;
  let requestId := vrf_requestRandomWords env coordinator gasLane subId
                     REQUEST_CONFIRMATIONS gasLimit NUM_WORDS in
  emit (RequestLotteryWinner requestId).

Definition fulfillRandomWords (env : Env)
    (requestId : uint256) (_randomWords : list uint256) : M unit :=
  word <- index _randomWords 0 ;;
  players <- gets s_players ;;
  indexOfWinner <- checked_mod word (len players) ;;
  recentWinner <- index players indexOfWinner ;;
  modify (set_recentWinner recentWinner) ;;
  bal <- gets this_balance ;;
  success <- call_value env recentWinner bal ;;
  if negb success then revert Lottery__TransferFailed else
  modify (set_lotteryState OPEN) ;;
  modify (set_players []) ;;
  modify (set_lastTimestamp (block_timestamp env)) ;;
  emit (WinnerPicked recentWinner).

(** ** The getters *)

Definition getEntranceFee : M uint256 := gets i_entranceFee.

Definition getPlayer (_index : uint256) : M address :=
  players <- gets s_players ;;
  index players _index.

Definition getRecentWinner : M address := gets s_recentWinner.

Definition getLotteryState : M LotteryState := gets s_lotteryState.

Definition getNumberOfPlayers : M uint256 :=
  players <- gets s_players ;;
  ret (len players).

Definition getInterval : M uint256 := gets i_interval.

Definition getGasLane : M N := gets i_gasLane.

(** The [uint64] is widened to the [uint256] it returns. *)
Definition getSubscriptionId : M uint256 := gets i_subscriptionId.

Definition getCallbackGasLimit : M N := gets i_callbackGasLimit.

Definition getLatestTimestamp : M uint256 := gets s_lastTimestamp.

Definition getVRFCoordinatorV2Address : M address := gets i_vrfCoordinator.

(** ** Transactions *)

(** A transaction that returns commits its storage and effects; one that
    reverts leaves the storage as it was and reports the error. *)
Definition transact (m : M unit) (s : Lottery) : Lottery * Result (list Effect) :=
  match m (mkFrame s []) with
  | Ok (_, f) => (this f, Ok (effects f))
  | Revert e => (s, Revert e)
  end.

(** A view call returns a value and commits nothing. *)
Definition view {A} (m : M A) (s : Lottery) : Result A :=
  match m (mkFrame s []) with
  | Ok (a, _) => Ok a
  | Revert e => Revert e
  end.

Inductive Op :=
| EnterLottery
| PerformUpkeep
| FulfillRandomWords (requestId : uint256) (randomWords : list uint256).

Definition run (env : Env) (op : Op) : M unit :=
  match op with
  | EnterLottery => enterLottery env
  | PerformUpkeep => performUpkeep env
  | FulfillRandomWords requestId randomWords =>
      fulfillRandomWords env requestId randomWords
  end.

(** The contract together with the log of what its committed transactions
    did. *)
Record World := mkWorld {
  lottery : Lottery;
  history : list Effect
}.

Definition committed (r : Result (list Effect)) : list Effect :=
  match r with Ok fx => fx | Revert _ => [] end.

Definition step (env : Env) (op : Op) (w : World) : World :=
  let (s', r) := transact (run env op) (lottery w) in
  mkWorld s' (history w ++ committed r).

Inductive reachable : World -> Prop :=
| reachable_init env vrf fee gasLane subId gasLimit interval :
    reachable (mkWorld (constructor env vrf fee gasLane subId gasLimit interval) [])
| reachable_step env op w :
    reachable w -> reachable (step env op w).

(** The contract does not store the identifier of the request it made:
    [performUpkeep] publishes it in [RequestLotteryWinner] and
    [fulfillRandomWords] publishes [WinnerPicked].  The request in flight is
    read off the log: the identifier of the latest [RequestLotteryWinner]
    that no [WinnerPicked] follows. *)
Definition track (pending : option uint256) (e : Effect) : option uint256 :=
  match e with
  | Emit (RequestLotteryWinner requestId) => Some requestId
  | Emit (WinnerPicked _) => None
  | _ => pending
  end.

Definition pendingRequestId (log : list Effect) : option uint256 :=
  fold_left track log None.

(** ** Closed forms of the committed storage *)

(** What a successful [enterLottery] leaves in storage. *)
Definition after_enter (env : Env) (s : Lottery) : Lottery :=
  set_players (s_players s ++ [msg_sender env])
    (set_balance (this_balance s + msg_value env) s).

(** What a successful [fulfillRandomWords] leaves in storage. *)
Definition after_fulfill (env : Env) (winner : address) (s : Lottery) : Lottery :=
  set_lastTimestamp (block_timestamp env)
    (set_players []
       (set_lotteryState OPEN
          (set_balance (this_balance s - this_balance s)
             (set_recentWinner winner s)))).

(** Whether an effect is a request for random words. *)
Definition is_request (e : Effect) : bool :=
  match e with RequestRandomWords _ _ _ _ _ _ => true | _ => false end.

(** ** Concrete runs used below *)

Module Example.

Definition coordinator (_ : address) (_ _ _ _ _ : N) : uint256 := 1.

Definition env (now : uint256) (sender : address) (value : uint256) : Env :=
  mkEnv now sender value coordinator (fun _ _ => true).

(** Same as [env], but every recipient refuses the payment. *)
Definition env_refusing (now : uint256) : Env :=
  mkEnv now 0 0 coordinator (fun _ _ => false).

Definition deployed : World :=
  mkWorld (constructor (env 0 10 0) 99 10 5 1 500000 30) [].

Definition entered1 : World := step (env 1 11 10) EnterLottery deployed.

Definition entered4 : World :=
  step (env 4 14 10) EnterLottery
    (step (env 3 13 10) EnterLottery
       (step (env 2 12 10) EnterLottery entered1)).

Definition requested : World := step (env 100 20 0) PerformUpkeep entered4.

Definition settled : World :=
  step (env 200 99 0) (FulfillRandomWords 1 [42]) requested.

End Example.

(** ** Sequences of calls and what the log tells *)

(** The transactions of a chain, oldest first, each with its environment. *)
Fixpoint run_calls (calls : list (Env * Op)) (w : World) : World :=
  match calls with
  | [] => w
  | (env, op) :: rest => run_calls rest (step env op w)
  end.

(** Block timestamps never go back: every call happens at or after [t], and
    at or after the call before it. *)
Fixpoint clock_ok (t : uint256) (calls : list (Env * Op)) : Prop :=
  match calls with
  | [] => True
  | (env, _) :: rest => t <= block_timestamp env /\ clock_ok (block_timestamp env) rest
  end.

(** The time of the last call of [calls], or [t] when there is none. *)
Fixpoint clock_end (t : uint256) (calls : list (Env * Op)) : uint256 :=
  match calls with
  | [] => t
  | (env, _) :: rest => clock_end (block_timestamp env) rest
  end.

(** [n] calls of [enterLottery], one per environment. *)
Definition entries (envs : list Env) : list (Env * Op) :=
  map (fun env => (env, EnterLottery)) envs.

Definition total (values : list uint256) : uint256 := fold_right N.add 0 values.

(** The players the log announces since the last [WinnerPicked]. *)
Definition entrants_step (acc : list address) (e : Effect) : list address :=
  match e with
  | Emit (LotteryEnter player) => acc ++ [player]
  | Emit (WinnerPicked _) => []
  | _ => acc
  end.

Definition entrants (log : list Effect) : list address :=
  fold_left entrants_step log [].

(** The winner of the latest [WinnerPicked] of the log, [address(0)] when
    there is none. *)
Definition lastWinner_step (acc : address) (e : Effect) : address :=
  match e with
  | Emit (WinnerPicked winner) => winner
  | _ => acc
  end.

Definition lastWinner (log : list Effect) : address :=
  fold_left lastWinner_step log 0.

(** The immutable configuration of a deployed contract. *)
Definition config (s : Lottery) : uint256 * address * N * N * N * uint256 :=
  (i_entranceFee s, i_vrfCoordinator s, i_gasLane s, i_subscriptionId s,
   i_callbackGasLimit s, i_interval s).



(** ** Running the functions *)

Ltac run_sol :=
  unfold bind, ret, revert, gets, modify, perform, emit; cbn.

Lemma len_zero {A} (xs : list A) : len xs = 0 <-> xs = [].
Proof.
  unfold len. destruct xs as [|x xs]; cbn.
  - tauto.
  - split; [lia | discriminate].
Qed.

Lemma nth_error_nonempty {A} (xs : list A) i x :
  nth_error xs i = Some x -> xs <> [].
Proof. destruct xs; [destruct i|]; discriminate. Qed.


Lemma fulfillRandomWords_run env requestId rv s fx :
  fulfillRandomWords env requestId rv (mkFrame s fx) =
  match rv with
  | [] => Revert (Panic IndexOutOfBounds)
  | word :: _ =>
      if len (s_players s) =? 0 then Revert (Panic DivisionByZero) else
      match nth_error (s_players s) (N.to_nat (word mod len (s_players s))) with
      | None => Revert (Panic IndexOutOfBounds)
      | Some winner =>
          if call_succeeds env winner (this_balance s) then
            Ok (tt, mkFrame (after_fulfill env winner s)
                      ((fx ++ [CallValue winner (this_balance s)])
                         ++ [Emit (WinnerPicked winner)]))
          else Revert Lottery__TransferFailed
      end
  end.
Proof.
  unfold fulfillRandomWords, index, checked_mod, call_value.
  destruct rv as [|word rest]; [reflexivity|]. run_sol.
  destruct (len (s_players s) =? 0); [reflexivity|]. run_sol.
  destruct (nth_error _ _) as [winner|]; [|reflexivity]. run_sol.
  destruct (call_succeeds env winner (this_balance s)); reflexivity.
Qed.

(** The index computed by [fulfillRandomWords] is always inside [s_players]. *)
Lemma winner_index_in_range (word : uint256) (players : list address) :
  players <> [] ->
  exists winner, nth_error players (N.to_nat (word mod len players)) = Some winner.
Proof.
  intros Hne.
  assert (Hlen : len players <> 0) by (rewrite len_zero; exact Hne).
  pose proof (N.mod_upper_bound word (len players) Hlen) as Hlt.
  destruct (nth_error players (N.to_nat (word mod len players))) as [p|] eqn:E.
  - eauto.
  - apply nth_error_None in E. unfold len in *. lia.
Qed.

(** A successful transaction of [fulfillRandomWords], read backwards. *)
Lemma fulfillRandomWords_ok env requestId rv s s' fx :
  transact (fulfillRandomWords env requestId rv) s = (s', Ok fx) ->
  exists word winner,
    nth_error rv 0 = Some word /\
    nth_error (s_players s) (N.to_nat (word mod len (s_players s))) = Some winner /\
    call_succeeds env winner (this_balance s) = true /\
    s' = after_fulfill env winner s /\
    fx = [CallValue winner (this_balance s); Emit (WinnerPicked winner)].
Proof.
  unfold transact. rewrite fulfillRandomWords_run.
  destruct rv as [|word rest]; [discriminate|].
  destruct (len (s_players s) =? 0); [discriminate|].
  destruct (nth_error _ _) as [winner|] eqn:Hw; [|discriminate].
  destruct (call_succeeds env winner (this_balance s)) eqn:Hc; [|discriminate].
  cbn. intros H. inversion H; subst.
  exists word, winner. repeat split; assumption.
Qed.

(** A reverted transaction leaves the world as it was. *)
Lemma step_revert env op w e :
  transact (run env op) (lottery w) = (lottery w, Revert e) ->
  step env op w = w.
Proof.
  intros H. unfold step. rewrite H. cbn. rewrite app_nil_r.
  destruct w; reflexivity.
Qed.

Lemma transact_revert m s s' e :
  transact m s = (s', Revert e) -> s' = s.
Proof.
  unfold transact. destruct (m _) as [[u f]|e']; intros H; inversion H; reflexivity.
Qed.

Lemma pendingRequestId_app log fx :
  pendingRequestId (log ++ fx) = fold_left track fx (pendingRequestId log).
Proof. unfold pendingRequestId. apply fold_left_app. Qed.


(** ** fulfillRandomWords *)





(** C3. When the payment to the selected winner fails, [fulfillRandomWords]
    reverts with [Lottery__TransferFailed] and nothing is committed: the
    storage (state, balance, players, recent winner, last timestamp) and the
    log are those before the call; a lottery that was [CALCULATING] still
    is. *)
Theorem fulfillRandomWords_transfer_failed env requestId rv w word winner
    (Hword : nth_error rv 0 = Some word)
    (Hwinner : nth_error (s_players (lottery w))
                 (N.to_nat (word mod len (s_players (lottery w)))) = Some winner)
    (Hfail : call_succeeds env winner (this_balance (lottery w)) = false) :
  let w' := step env (FulfillRandomWords requestId rv) w in
  transact (fulfillRandomWords env requestId rv) (lottery w)
    = (lottery w, Revert Lottery__TransferFailed) /\
  w' = w /\
  s_lotteryState (lottery w') = s_lotteryState (lottery w) /\
  this_balance (lottery w') = this_balance (lottery w) /\
  s_players (lottery w') = s_players (lottery w) /\
  s_recentWinner (lottery w') = s_recentWinner (lottery w) /\
  s_lastTimestamp (lottery w') = s_lastTimestamp (lottery w) /\
  (s_lotteryState (lottery w) = CALCULATING ->
   s_lotteryState (lottery w') = CALCULATING).
Proof.
  intros w'.
  assert (Hrun : transact (fulfillRandomWords env requestId rv) (lottery w)
                 = (lottery w, Revert Lottery__TransferFailed)).
  { unfold transact. rewrite fulfillRandomWords_run.
    destruct rv as [|word' rest]; [discriminate|].
    cbn in Hword. injection Hword as ->.
    pose proof (nth_error_nonempty _ _ _ Hwinner) as Hne.
    destruct (len (s_players (lottery w)) =? 0) eqn:E.
    - apply N.eqb_eq in E. apply len_zero in E. contradiction.
    - rewrite Hwinner, Hfail. reflexivity. }
  assert (Hw : w' = w)
    by (apply (step_revert env (FulfillRandomWords requestId rv) w _ Hrun)).
  rewrite Hw. repeat split; try reflexivity; try assumption. tauto.
Qed.

Lemma fulfillRandomWords_transfer_failed_witness :
  let w' := step (Example.env_refusing 200) (FulfillRandomWords 1 [42]) Example.requested in
  transact (fulfillRandomWords (Example.env_refusing 200) 1 [42]) (lottery Example.requested)
    = (lottery Example.requested, Revert Lottery__TransferFailed) /\
  w' = Example.requested /\
  s_lotteryState (lottery w') = s_lotteryState (lottery Example.requested) /\
  this_balance (lottery w') = this_balance (lottery Example.requested) /\
  s_players (lottery w') = s_players (lottery Example.requested) /\
  s_recentWinner (lottery w') = s_recentWinner (lottery Example.requested) /\
  s_lastTimestamp (lottery w') = s_lastTimestamp (lottery Example.requested) /\
  (s_lotteryState (lottery Example.requested) = CALCULATING ->
   s_lotteryState (lottery w') = CALCULATING).
Proof.
  apply (fulfillRandomWords_transfer_failed (Example.env_refusing 200) 1 [42]
           Example.requested 42 13); reflexivity.
Defined.

Lemma Example_requested_reachable : reachable Example.requested.
Proof.
  unfold Example.requested, Example.entered4, Example.entered1, Example.deployed.
  repeat apply reachable_step. apply reachable_init.
Qed.

(** C4, as stated, fails: a request identifier other than the pending one is
    not rejected.  After four entries and [performUpkeep] the request in
    flight is 1, and [fulfillRandomWords(2, [42])] settles the lottery. *)
Lemma fulfillRandomWords_accepts_other_requestId :
  ~ (forall env w requestId rv,
       reachable w ->
       pendingRequestId (history w) <> Some requestId ->
       exists e,
         transact (fulfillRandomWords env requestId rv) (lottery w)
           = (lottery w, Revert e)).
Proof.
  intros H.
  destruct (H (Example.env 200 99 0) Example.requested 2 [42]) as [e He].
  - exact Example_requested_reachable.
  - vm_compute. discriminate.
  - vm_compute in He. discriminate.
Qed.

(** C4, amended.  [fulfillRandomWords] compares its [requestId] with nothing:
    when it settles the lottery for one identifier it settles it the same
    way for every other.  What rejects a repeat is the empty player list: any
    [fulfillRandomWords] after a successful one, with the same identifier or
    another, reverts with a panic and changes nothing. *)
Theorem fulfillRandomWords_repeat_reverts env requestId rv w s' fx
    (Hok : transact (fulfillRandomWords env requestId rv) (lottery w) = (s', Ok fx)) :
  let w' := step env (FulfillRandomWords requestId rv) w in
  (forall other,
     transact (fulfillRandomWords env other rv) (lottery w) = (s', Ok fx)) /\
  (forall env' requestId' rv',
     exists code,
       transact (fulfillRandomWords env' requestId' rv') (lottery w')
         = (lottery w', Revert (Panic code)) /\
       step env' (FulfillRandomWords requestId' rv') w' = w').
Proof.
  intros w'. split.
  - intros other. exact Hok.
  - intros env' requestId' rv'.
    assert (Hplayers : s_players (lottery w') = []).
    { subst w'. unfold step. cbn [run]. rewrite Hok. cbn [lottery].
      destruct (fulfillRandomWords_ok _ _ _ _ _ _ Hok)
        as (word & winner & _ & _ & _ & -> & _).
      reflexivity. }
    assert (Hrun : exists code,
               transact (fulfillRandomWords env' requestId' rv') (lottery w')
               = (lottery w', Revert (Panic code))).
    { unfold transact. rewrite fulfillRandomWords_run, Hplayers.
      destruct rv' as [|word' rest'].
      - exists IndexOutOfBounds. reflexivity.
      - exists DivisionByZero. reflexivity. }
    destruct Hrun as [code Hrun]. exists code. split; [exact Hrun|].
    exact (step_revert env' (FulfillRandomWords requestId' rv') w' _ Hrun).
Qed.

Lemma fulfillRandomWords_repeat_reverts_witness :
  let w' := step (Example.env 200 99 0) (FulfillRandomWords 1 [42]) Example.requested in
  (forall other,
     transact (fulfillRandomWords (Example.env 200 99 0) other [42])
       (lottery Example.requested)
     = (lottery Example.settled, Ok [CallValue 13 40; Emit (WinnerPicked 13)])) /\
  (forall env' requestId' rv',
     exists code,
       transact (fulfillRandomWords env' requestId' rv') (lottery w')
         = (lottery w', Revert (Panic code)) /\
       step env' (FulfillRandomWords requestId' rv') w' = w').
Proof.
  apply (fulfillRandomWords_repeat_reverts (Example.env 200 99 0) 1 [42]
           Example.requested (lottery Example.settled)
           [CallValue 13 40; Emit (WinnerPicked 13)]).
  vm_compute. reflexivity.
Defined.

(** C9. The outcome of [fulfillRandomWords] does not depend on [requestId]:
    from the same storage, with the same random words, two identifiers give
    the same result and the same storage and log afterwards. *)
Theorem fulfillRandomWords_requestId_irrelevant env r1 r2 rv w :
  fulfillRandomWords env r1 rv = fulfillRandomWords env r2 rv /\
  transact (fulfillRandomWords env r1 rv) (lottery w)
    = transact (fulfillRandomWords env r2 rv) (lottery w) /\
  step env (FulfillRandomWords r1 rv) w = step env (FulfillRandomWords r2 rv) w.
Proof. repeat split. Qed.

(** ** checkUpkeep and performUpkeep *)

Lemma checkUpkeep_run env s fx :
  checkUpkeep env (mkFrame s fx) =
  if block_timestamp env <? s_lastTimestamp s then Revert (Panic ArithmeticOverflow)
  else Ok (LotteryState_eqb OPEN (s_lotteryState s)
           && (i_interval s <? block_timestamp env - s_lastTimestamp s)
           && (0 <? len (s_players s))
           && (0 <? this_balance s), mkFrame s fx).
Proof.
  unfold checkUpkeep, checked_sub. run_sol.
  destruct (block_timestamp env <? s_lastTimestamp s); reflexivity.
Qed.

Lemma LotteryState_eqb_eq a b : LotteryState_eqb a b = true <-> a = b.
Proof. destruct a, b; cbn; split; congruence. Qed.

Lemma len_pos {A} (xs : list A) : (0 <? len xs) = true <-> xs <> [].
Proof.
  rewrite N.ltb_lt. pose proof (len_zero xs). split.
  - intros Hlt ->. cbn in Hlt. lia.
  - intros Hne. destruct (N.eq_dec (len xs) 0); [tauto | lia].
Qed.

(** C5. [checkUpkeep] answers true exactly when the lottery is [OPEN], more
    than [i_interval] has passed since [s_lastTimestamp], there is a player
    and the balance is positive.  With no player it never answers true, and
    answers false whenever the clock has not gone back. *)
Theorem checkUpkeep_true_iff env s :
  (view (checkUpkeep env) s = Ok true <->
     s_lotteryState s = OPEN /\
     (Z.of_N (block_timestamp env) - Z.of_N (s_lastTimestamp s)
        > Z.of_N (i_interval s))%Z /\
     s_players s <> [] /\
     0 < this_balance s) /\
  (s_players s = [] -> view (checkUpkeep env) s <> Ok true) /\
  (s_players s = [] -> s_lastTimestamp s <= block_timestamp env ->
   view (checkUpkeep env) s = Ok false).
Proof.
  unfold view. rewrite checkUpkeep_run.
  destruct (block_timestamp env <? s_lastTimestamp s) eqn:Hsub.
  - apply N.ltb_lt in Hsub. split; [split|split].
    + discriminate.
    + intros (_ & Htime & _). lia.
    + discriminate.
    + intros _ Hle. lia.
  - apply N.ltb_ge in Hsub.
    assert (Hiff : Ok (LotteryState_eqb OPEN (s_lotteryState s)
                       && (i_interval s <? block_timestamp env - s_lastTimestamp s)
                       && (0 <? len (s_players s))
                       && (0 <? this_balance s)) = Ok true <->
                   s_lotteryState s = OPEN /\
                   (Z.of_N (block_timestamp env) - Z.of_N (s_lastTimestamp s)
                      > Z.of_N (i_interval s))%Z /\
                   s_players s <> [] /\
                   0 < this_balance s).
    { split.
      + intros H. injection H as H.
        apply andb_prop in H. destruct H as [H Hbal].
        apply andb_prop in H. destruct H as [H Hplayers].
        apply andb_prop in H. destruct H as [Hopen Htime].
        apply (LotteryState_eqb_eq OPEN (s_lotteryState s)) in Hopen.
        apply N.ltb_lt in Htime.
        apply len_pos in Hplayers. apply N.ltb_lt in Hbal.
        repeat split; [congruence | lia | assumption | assumption].
      + intros (Hopen & Htime & Hplayers & Hbal). f_equal.
        repeat (apply andb_true_intro; split).
        * apply LotteryState_eqb_eq. congruence.
        * apply N.ltb_lt. lia.
        * apply len_pos. exact Hplayers.
        * apply N.ltb_lt. exact Hbal. }
    split; [exact Hiff | split].
    + intros Hnil H. apply Hiff in H. tauto.
    + intros Hnil _. rewrite Hnil. cbn. f_equal.
      rewrite andb_false_r. reflexivity.
Qed.

Lemma checkUpkeep_true_iff_witness :
  view (checkUpkeep (Example.env 100 20 0)) (lottery Example.entered4) = Ok true /\
  view (checkUpkeep (Example.env 100 20 0)) (lottery Example.deployed) <> Ok true /\
  view (checkUpkeep (Example.env 100 20 0)) (lottery Example.deployed) = Ok false.
Proof.
  split; [|split].
  - apply (proj1 (checkUpkeep_true_iff (Example.env 100 20 0) (lottery Example.entered4))).
    vm_compute. repeat split; discriminate.
  - apply (proj1 (proj2 (checkUpkeep_true_iff (Example.env 100 20 0)
                           (lottery Example.deployed)))).
    reflexivity.
  - apply (proj2 (proj2 (checkUpkeep_true_iff (Example.env 100 20 0)
                           (lottery Example.deployed)))).
    + reflexivity.
    + vm_compute. discriminate.
Defined.

Lemma performUpkeep_run env s fx :
  performUpkeep env (mkFrame s fx) =
  match checkUpkeep env (mkFrame s fx) with
  | Revert e => Revert e
  | Ok (true, _) =>
      Ok (tt, mkFrame (set_lotteryState CALCULATING s)
                ((fx ++ [RequestRandomWords (i_vrfCoordinator s) (i_gasLane s)
                           (i_subscriptionId s) REQUEST_CONFIRMATIONS
                           (i_callbackGasLimit s) NUM_WORDS])
                   ++ [Emit (RequestLotteryWinner
                               (vrf_requestRandomWords env (i_vrfCoordinator s)
                                  (i_gasLane s) (i_subscriptionId s)
                                  REQUEST_CONFIRMATIONS (i_callbackGasLimit s)
                                  NUM_WORDS))]))
  | Ok (false, _) =>
      Revert (Lottery__UpkeepNotNeeded (this_balance s) (len (s_players s))
                (LotteryState_to_uint (s_lotteryState s)))
  end.
Proof.
  unfold performUpkeep. unfold bind at 1. rewrite checkUpkeep_run.
  destruct (block_timestamp env <? s_lastTimestamp s); [reflexivity|].
  destruct (_ && _); reflexivity.
Qed.



(** A successful transaction of [performUpkeep], read backwards. *)
Lemma performUpkeep_ok env s s' fx :
  transact (performUpkeep env) s = (s', Ok fx) ->
  s_lotteryState s = OPEN /\
  s_players s <> [] /\
  s' = set_lotteryState CALCULATING s /\
  fx = [RequestRandomWords (i_vrfCoordinator s) (i_gasLane s)
          (i_subscriptionId s) REQUEST_CONFIRMATIONS
          (i_callbackGasLimit s) NUM_WORDS;
        Emit (RequestLotteryWinner
                (vrf_requestRandomWords env (i_vrfCoordinator s)
                   (i_gasLane s) (i_subscriptionId s)
                   REQUEST_CONFIRMATIONS (i_callbackGasLimit s) NUM_WORDS))].
Proof.
  unfold transact. rewrite performUpkeep_run, checkUpkeep_run.
  destruct (block_timestamp env <? s_lastTimestamp s); [discriminate|].
  destruct (LotteryState_eqb OPEN (s_lotteryState s)) eqn:Hopen; [|discriminate].
  destruct (i_interval s <? block_timestamp env - s_lastTimestamp s); [|discriminate].
  destruct (0 <? len (s_players s)) eqn:Hplayers; [|discriminate].
  destruct (0 <? this_balance s); [|discriminate].
  cbn. intros [= <- <-].
  apply LotteryState_eqb_eq in Hopen. apply len_pos in Hplayers.
  repeat split; [congruence | assumption].
Qed.



(** ** enterLottery *)


Lemma enterLottery_run env s fx :
  enterLottery env (mkFrame s fx) =
  if msg_value env <? i_entranceFee s then Revert Lottery__NotEnoughETHEntered
  else if negb (LotteryState_eqb (s_lotteryState s) OPEN) then Revert Lottery__NotOpen
  else Ok (tt, mkFrame (after_enter env s) (fx ++ [Emit (LotteryEnter (msg_sender env))])).
Proof.
  unfold enterLottery, receive_value. run_sol.
  destruct (msg_value env <? i_entranceFee s); [reflexivity|]. run_sol.
  destruct (s_lotteryState s); reflexivity.
Qed.

Lemma enterLottery_ok env s s' fx :
  transact (enterLottery env) s = (s', Ok fx) ->
  i_entranceFee s <= msg_value env /\
  s_lotteryState s = OPEN /\
  s' = after_enter env s /\
  fx = [Emit (LotteryEnter (msg_sender env))].
Proof.
  unfold transact. rewrite enterLottery_run.
  destruct (msg_value env <? i_entranceFee s) eqn:Hfee; [discriminate|].
  destruct (s_lotteryState s) eqn:Hst; cbn; [|discriminate].
  intros [= <- <-]. apply N.ltb_ge in Hfee. repeat split; assumption.
Qed.

(** C7. In every state, open or not, [enterLottery] with less than
    [i_entranceFee] reverts with [Lottery__NotEnoughETHEntered] (never with
    [Lottery__NotOpen]) and leaves players, balance and everything else as
    they were. *)
Theorem enterLottery_underpaid env w
    (Hlow : msg_value env < i_entranceFee (lottery w)) :
  let w' := step env EnterLottery w in
  transact (enterLottery env) (lottery w)
    = (lottery w, Revert Lottery__NotEnoughETHEntered) /\
  w' = w /\
  s_players (lottery w') = s_players (lottery w) /\
  this_balance (lottery w') = this_balance (lottery w).
Proof.
  intros w'.
  assert (Hrun : transact (enterLottery env) (lottery w)
                 = (lottery w, Revert Lottery__NotEnoughETHEntered)).
  { unfold transact. rewrite enterLottery_run.
    apply N.ltb_lt in Hlow. rewrite Hlow. reflexivity. }
  assert (Hw : w' = w) by exact (step_revert env EnterLottery w _ Hrun).
  rewrite Hw. repeat split. exact Hrun.
Qed.

Lemma enterLottery_underpaid_witness :
  let w' := step (Example.env 150 15 9) EnterLottery Example.requested in
  s_lotteryState (lottery Example.requested) = CALCULATING /\
  transact (enterLottery (Example.env 150 15 9)) (lottery Example.requested)
    = (lottery Example.requested, Revert Lottery__NotEnoughETHEntered) /\
  w' = Example.requested /\
  s_players (lottery w') = s_players (lottery Example.requested) /\
  this_balance (lottery w') = this_balance (lottery Example.requested).
Proof.
  split; [reflexivity|].
  apply (enterLottery_underpaid (Example.env 150 15 9) Example.requested).
  reflexivity.
Defined.

(** C10. A successful [enterLottery] appends [msg.sender] to [s_players] and
    adds [msg.value] to the balance; the state, the last timestamp, the
    recent winner, the request in flight, the entrance fee and the interval
    (and the rest of the configuration) stay as they were. *)
Theorem enterLottery_frame env w s' fx
    (Hok : transact (enterLottery env) (lottery w) = (s', Ok fx)) :
  let w' := step env EnterLottery w in
  lottery w' = s' /\
  s_players s' = s_players (lottery w) ++ [msg_sender env] /\
  this_balance s' = this_balance (lottery w) + msg_value env /\
  s_lotteryState s' = s_lotteryState (lottery w) /\
  s_lastTimestamp s' = s_lastTimestamp (lottery w) /\
  s_recentWinner s' = s_recentWinner (lottery w) /\
  pendingRequestId (history w') = pendingRequestId (history w) /\
  i_entranceFee s' = i_entranceFee (lottery w) /\
  i_interval s' = i_interval (lottery w) /\
  i_vrfCoordinator s' = i_vrfCoordinator (lottery w) /\
  i_gasLane s' = i_gasLane (lottery w) /\
  i_subscriptionId s' = i_subscriptionId (lottery w) /\
  i_callbackGasLimit s' = i_callbackGasLimit (lottery w).
Proof.
  intros w'. subst w'. unfold step. cbn [run]. rewrite Hok. cbn [lottery history committed].
  destruct (enterLottery_ok _ _ _ _ Hok) as (_ & _ & -> & ->).
  repeat split. rewrite pendingRequestId_app. reflexivity.
Qed.

Lemma enterLottery_frame_witness :
  let s' := lottery Example.entered1 in
  let w' := step (Example.env 1 11 10) EnterLottery Example.deployed in
  lottery w' = s' /\
  s_players s' = s_players (lottery Example.deployed) ++ [11] /\
  this_balance s' = this_balance (lottery Example.deployed) + 10 /\
  s_lotteryState s' = s_lotteryState (lottery Example.deployed) /\
  s_lastTimestamp s' = s_lastTimestamp (lottery Example.deployed) /\
  s_recentWinner s' = s_recentWinner (lottery Example.deployed) /\
  pendingRequestId (history w') = pendingRequestId (history Example.deployed) /\
  i_entranceFee s' = i_entranceFee (lottery Example.deployed) /\
  i_interval s' = i_interval (lottery Example.deployed) /\
  i_vrfCoordinator s' = i_vrfCoordinator (lottery Example.deployed) /\
  i_gasLane s' = i_gasLane (lottery Example.deployed) /\
  i_subscriptionId s' = i_subscriptionId (lottery Example.deployed) /\
  i_callbackGasLimit s' = i_callbackGasLimit (lottery Example.deployed).
Proof.
  apply (enterLottery_frame (Example.env 1 11 10) Example.deployed
           (lottery Example.entered1) [Emit (LotteryEnter 11)]).
  vm_compute. reflexivity.
Defined.

(** ** Reachable states *)

(** What one transaction can do to the world. *)
Lemma step_cases env op w :
  step env op w = w \/
  (op = EnterLottery /\
   s_lotteryState (lottery w) = OPEN /\
   step env op w = mkWorld (after_enter env (lottery w))
                     (history w ++ [Emit (LotteryEnter (msg_sender env))])) \/
  (op = PerformUpkeep /\
   s_lotteryState (lottery w) = OPEN /\
   s_players (lottery w) <> [] /\
   exists request requestId,
     step env op w = mkWorld (set_lotteryState CALCULATING (lottery w))
                       (history w ++ [request; Emit (RequestLotteryWinner requestId)])
     /\ is_request request = true) \/
  (exists requestId rv winner,
     op = FulfillRandomWords requestId rv /\
     s_players (lottery w) <> [] /\
     step env op w = mkWorld (after_fulfill env winner (lottery w))
                       (history w ++ [CallValue winner (this_balance (lottery w));
                                      Emit (WinnerPicked winner)])).
Proof.
  destruct (transact (run env op) (lottery w)) as [s' [fx|e]] eqn:Hrun.
  2:{ left. pose proof (transact_revert _ _ _ _ Hrun) as ->.
      exact (step_revert env op w e Hrun). }
  right. unfold step. rewrite Hrun. cbn [committed].
  destruct op as [| |requestId rv]; cbn [run] in Hrun.
  - left. destruct (enterLottery_ok _ _ _ _ Hrun) as (_ & Hopen & -> & ->).
    repeat split. exact Hopen.
  - right. left.
    destruct (performUpkeep_ok _ _ _ _ Hrun) as (Hopen & Hplayers & -> & ->).
    repeat split; try assumption.
    eexists _, _. split; reflexivity.
  - right. right.
    destruct (fulfillRandomWords_ok _ _ _ _ _ _ Hrun)
      as (word & winner & _ & Hwin & _ & -> & ->).
    exists requestId, rv, winner. repeat split.
    eapply nth_error_nonempty; eassumption.
Qed.

(** The request read off the log is in flight exactly while the lottery is
    [CALCULATING], and a lottery that is [CALCULATING] has players. *)
Lemma reachable_invariant w :
  reachable w ->
  (s_lotteryState (lottery w) = CALCULATING -> s_players (lottery w) <> []) /\
  (s_lotteryState (lottery w) = CALCULATING <-> pendingRequestId (history w) <> None).
Proof.
  induction 1 as [env vrf fee gasLane subId gasLimit interval | env op w Hw IH].
  - cbn. split; [discriminate|]. split; [discriminate | congruence].
  - destruct (step_cases env op w)
      as [-> | [(_ & Hopen & ->) | [(_ & Hopen & Hplayers & rq & rid & -> & Hrq)
                                   | (rid & rv & winner & _ & _ & ->)]]].
    + exact IH.
    + cbn [lottery history]. rewrite pendingRequestId_app. cbn.
      destruct IH as [IH1 IH2]. rewrite Hopen in *. split; [discriminate|exact IH2].
    + cbn [lottery history]. rewrite pendingRequestId_app.
      destruct rq; try discriminate Hrq. cbn.
      split; [intros _; exact Hplayers|]. split; [discriminate | reflexivity].
    + cbn [lottery history]. rewrite pendingRequestId_app. cbn.
      split; [discriminate|]. split; [discriminate | congruence].
Qed.

(** C8. In every state reachable from the constructor by [enterLottery],
    [performUpkeep] and [fulfillRandomWords], a lottery that is
    [CALCULATING] has at least one player, so [fulfillRandomWords] does not
    divide by zero there. *)
Theorem calculating_has_players w
    (Hreach : reachable w)
    (Hcalc : s_lotteryState (lottery w) = CALCULATING) :
  s_players (lottery w) <> [] /\
  len (s_players (lottery w)) <> 0 /\
  forall env requestId rv s',
    transact (fulfillRandomWords env requestId rv) (lottery w)
      <> (s', Revert (Panic DivisionByZero)).
Proof.
  pose proof (proj1 (reachable_invariant w Hreach) Hcalc) as Hplayers.
  assert (Hlen : len (s_players (lottery w)) <> 0) by (rewrite len_zero; exact Hplayers).
  repeat split; try assumption.
  intros env requestId rv s'. unfold transact. rewrite fulfillRandomWords_run.
  destruct rv as [|word rest]; [discriminate|].
  apply N.eqb_neq in Hlen. rewrite Hlen.
  destruct (nth_error _ _) as [winner|]; [|discriminate].
  destruct (call_succeeds env winner _); discriminate.
Qed.

Lemma calculating_has_players_witness :
  s_players (lottery Example.requested) <> [] /\
  len (s_players (lottery Example.requested)) <> 0 /\
  forall env requestId rv s',
    transact (fulfillRandomWords env requestId rv) (lottery Example.requested)
      <> (s', Revert (Panic DivisionByZero)).
Proof.
  apply (calculating_has_players Example.requested).
  - exact Example_requested_reachable.
  - reflexivity.
Defined.

(** ** More on enterLottery and the getters *)

Lemma step_enter env w :
  i_entranceFee (lottery w) <= msg_value env ->
  s_lotteryState (lottery w) = OPEN ->
  step env EnterLottery w
    = mkWorld (after_enter env (lottery w))
        (history w ++ [Emit (LotteryEnter (msg_sender env))]).
Proof.
  intros Hfee Hopen. unfold step, transact. cbn [run].
  rewrite enterLottery_run. apply N.ltb_ge in Hfee. rewrite Hfee, Hopen. reflexivity.
Qed.

Lemma len_app {A} (xs ys : list A) : len (xs ++ ys) = len xs + len ys.
Proof. unfold len. rewrite length_app. lia. Qed.

Lemma getPlayer_view i s :
  view (getPlayer i) s =
  match nth_error (s_players s) (N.to_nat i) with
  | Some p => Ok p
  | None => Revert (Panic IndexOutOfBounds)
  end.
Proof.
  unfold view, getPlayer, index. run_sol.
  destruct (nth_error _ _); reflexivity.
Qed.

(** X1. [enterLottery] with enough payment on a lottery that is
    [CALCULATING] reverts with [Lottery__NotOpen] and changes nothing: the
    payment is not kept and the sender is not recorded. *)
Theorem enterLottery_not_open env w
    (Hpaid : i_entranceFee (lottery w) <= msg_value env)
    (Hstate : s_lotteryState (lottery w) = CALCULATING) :
  transact (enterLottery env) (lottery w) = (lottery w, Revert Lottery__NotOpen) /\
  step env EnterLottery w = w.
Proof.
  assert (Hrun : transact (enterLottery env) (lottery w)
                 = (lottery w, Revert Lottery__NotOpen)).
  { unfold transact. rewrite enterLottery_run.
    apply N.ltb_ge in Hpaid. rewrite Hpaid, Hstate. reflexivity. }
  split; [exact Hrun|]. exact (step_revert env EnterLottery w _ Hrun).
Qed.

Lemma enterLottery_not_open_witness :
  transact (enterLottery (Example.env 150 15 10)) (lottery Example.requested)
    = (lottery Example.requested, Revert Lottery__NotOpen) /\
  step (Example.env 150 15 10) EnterLottery Example.requested = Example.requested.
Proof.
  apply (enterLottery_not_open (Example.env 150 15 10) Example.requested).
  - vm_compute. discriminate.
  - reflexivity.
Defined.

(** X2. [enterLottery] succeeds exactly when the payment is at least the
    entrance fee and the lottery is [OPEN]; it then keeps the whole payment,
    records the sender once and announces [LotteryEnter(msg.sender)], and it
    reverts in every other case. *)
Theorem enterLottery_succeeds_iff env s :
  (transact (enterLottery env) s
     = (after_enter env s, Ok [Emit (LotteryEnter (msg_sender env))]) <->
   i_entranceFee s <= msg_value env /\ s_lotteryState s = OPEN) /\
  (~ (i_entranceFee s <= msg_value env /\ s_lotteryState s = OPEN) ->
   exists e, transact (enterLottery env) s = (s, Revert e)).
Proof.
  unfold transact. rewrite enterLottery_run.
  destruct (msg_value env <? i_entranceFee s) eqn:Hfee.
  - apply N.ltb_lt in Hfee. split; [split|].
    + discriminate.
    + intros [Hle _]. lia.
    + intros _. eexists. reflexivity.
  - apply N.ltb_ge in Hfee. destruct (s_lotteryState s); cbn.
    + split; [split|]; [tauto | reflexivity | tauto].
    + split; [split|].
      * discriminate.
      * intros [_ H]. discriminate.
      * intros _. eexists. reflexivity.
Qed.

Lemma enterLottery_succeeds_iff_witness :
  transact (enterLottery (Example.env 1 11 10)) (lottery Example.deployed)
    = (after_enter (Example.env 1 11 10) (lottery Example.deployed),
       Ok [Emit (LotteryEnter 11)]) /\
  exists e,
    transact (enterLottery (Example.env 1 11 9)) (lottery Example.deployed)
      = (lottery Example.deployed, Revert e).
Proof.
  split.
  - apply (proj2 (proj1 (enterLottery_succeeds_iff (Example.env 1 11 10)
                           (lottery Example.deployed)))).
    split; [vm_compute; discriminate | reflexivity].
  - apply (proj2 (enterLottery_succeeds_iff (Example.env 1 11 9)
                    (lottery Example.deployed))).
    intros [H _]. vm_compute in H. apply H. reflexivity.
Defined.

(** X3. After a successful [enterLottery], [getNumberOfPlayers] is one more
    than before, [getPlayer] at the old count returns [msg.sender], and
    [getPlayer] at every earlier index returns what it returned before. *)
Theorem getPlayer_after_enter env s s' fx
    (Hok : transact (enterLottery env) s = (s', Ok fx)) :
  view getNumberOfPlayers s' = Ok (len (s_players s) + 1) /\
  view (getPlayer (len (s_players s))) s' = Ok (msg_sender env) /\
  forall i, i < len (s_players s) -> view (getPlayer i) s' = view (getPlayer i) s.
Proof.
  destruct (enterLottery_ok _ _ _ _ Hok) as (_ & _ & -> & _).
  split; [|split].
  - unfold view, getNumberOfPlayers. run_sol. rewrite len_app. reflexivity.
  - rewrite getPlayer_view. cbn [after_enter set_players s_players].
    unfold len. rewrite Nat2N.id, nth_error_app2, Nat.sub_diag by lia. reflexivity.
  - intros i Hi. rewrite !getPlayer_view. cbn [after_enter set_players s_players].
    rewrite nth_error_app1; [reflexivity|]. unfold len in Hi. lia.
Qed.

Lemma getPlayer_after_enter_witness :
  view getNumberOfPlayers (lottery Example.entered4)
    = Ok (len [11; 12; 13] + 1) /\
  view (getPlayer (len [11; 12; 13])) (lottery Example.entered4) = Ok 14 /\
  forall i, i < len [11; 12; 13] ->
    view (getPlayer i) (lottery Example.entered4)
    = view (getPlayer i)
        (lottery (step (Example.env 3 13 10) EnterLottery
                    (step (Example.env 2 12 10) EnterLottery Example.entered1))).
Proof.
  apply (getPlayer_after_enter (Example.env 4 14 10)
           (lottery (step (Example.env 3 13 10) EnterLottery
                       (step (Example.env 2 12 10) EnterLottery Example.entered1)))
           (lottery Example.entered4) [Emit (LotteryEnter 14)]).
  vm_compute. reflexivity.
Defined.

(** X4. [getPlayer] returns the player stored at an index below
    [getNumberOfPlayers], and panics with an out-of-bounds error at every
    other index; in particular it always panics when there are no
    players. *)
Theorem getPlayer_bounds s i :
  (i < len (s_players s) ->
   exists p, view (getPlayer i) s = Ok p /\
             nth_error (s_players s) (N.to_nat i) = Some p /\
             In p (s_players s)) /\
  (len (s_players s) <= i ->
   view (getPlayer i) s = Revert (Panic IndexOutOfBounds)) /\
  (view getNumberOfPlayers s = Ok (len (s_players s))).
Proof.
  rewrite getPlayer_view. split; [|split].
  - intros Hi. destruct (nth_error (s_players s) (N.to_nat i)) as [p|] eqn:E.
    + exists p. repeat split. eapply nth_error_In; eassumption.
    + apply nth_error_None in E. unfold len in Hi. lia.
  - intros Hi. destruct (nth_error (s_players s) (N.to_nat i)) as [p|] eqn:E.
    + assert (N.to_nat i < length (s_players s))%nat
        by (apply nth_error_Some; congruence).
      unfold len in Hi. lia.
    + reflexivity.
  - reflexivity.
Qed.

Lemma getPlayer_bounds_witness :
  (exists p, view (getPlayer 3) (lottery Example.entered4) = Ok p /\
             nth_error (s_players (lottery Example.entered4)) (N.to_nat 3) = Some p /\
             In p (s_players (lottery Example.entered4))) /\
  view (getPlayer 4) (lottery Example.entered4) = Revert (Panic IndexOutOfBounds).
Proof.
  split.
  - apply (proj1 (getPlayer_bounds (lottery Example.entered4) 3)). reflexivity.
  - apply (proj1 (proj2 (getPlayer_bounds (lottery Example.entered4) 4))).
    vm_compute. discriminate.
Defined.

(** X5. Any number of [enterLottery] calls on an [OPEN] lottery, each paying
    at least the fee, all succeed: the senders are appended to the players
    in call order (a sender who enters twice holds two places), the balance
    grows by the sum of the payments, the lottery stays [OPEN], and the log
    gains one [LotteryEnter] per call. *)
Theorem enterLottery_many envs w
    (Hopen : s_lotteryState (lottery w) = OPEN)
    (Hpaid : Forall (fun env => i_entranceFee (lottery w) <= msg_value env) envs) :
  let w' := run_calls (entries envs) w in
  s_players (lottery w') = s_players (lottery w) ++ map msg_sender envs /\
  this_balance (lottery w') = this_balance (lottery w) + total (map msg_value envs) /\
  s_lotteryState (lottery w') = OPEN /\
  history w' = history w ++ map (fun env => Emit (LotteryEnter (msg_sender env))) envs.
Proof.
  revert w Hopen Hpaid.
  induction envs as [|env envs IH]; intros w Hopen Hpaid; cbv zeta.
  - cbn. rewrite !app_nil_r, N.add_0_r. repeat split. exact Hopen.
  - inversion Hpaid as [|? ? Hfee Hrest]; subst.
    unfold entries. cbn [map run_calls]. fold (entries envs).
    rewrite (step_enter env w Hfee Hopen).
    specialize (IH (mkWorld (after_enter env (lottery w))
                      (history w ++ [Emit (LotteryEnter (msg_sender env))]))
                  Hopen Hrest).
    cbv zeta in IH. destruct IH as (Hp & Hb & Hs & Hh).
    rewrite Hp, Hb, Hs, Hh. cbn.
    rewrite <- !app_assoc. cbn. repeat split.
    fold (total (map msg_value envs)). lia.
Qed.

Lemma enterLottery_many_witness :
  let envs := [Example.env 1 11 10; Example.env 2 11 25; Example.env 3 12 10] in
  let w' := run_calls (entries envs) Example.deployed in
  s_players (lottery w') = s_players (lottery Example.deployed) ++ [11; 11; 12] /\
  this_balance (lottery w') = this_balance (lottery Example.deployed) + 45 /\
  s_lotteryState (lottery w') = OPEN /\
  history w' = history Example.deployed
                 ++ [Emit (LotteryEnter 11); Emit (LotteryEnter 11); Emit (LotteryEnter 12)].
Proof.
  apply (enterLottery_many
           [Example.env 1 11 10; Example.env 2 11 25; Example.env 3 12 10]
           Example.deployed).
  - reflexivity.
  - repeat constructor; vm_compute; discriminate.
Defined.

(** ** More on fulfillRandomWords and performUpkeep *)

(** X6. The winner of a successful [fulfillRandomWords] is one of the
    players of the round, and the only payment the call makes goes to that
    winner and carries the whole balance. *)
Theorem fulfillRandomWords_winner_is_player env requestId rv s s' fx
    (Hok : transact (fulfillRandomWords env requestId rv) s = (s', Ok fx)) :
  In (s_recentWinner s') (s_players s) /\
  forall to value,
    In (CallValue to value) fx ->
    to = s_recentWinner s' /\ value = this_balance s.
Proof.
  destruct (fulfillRandomWords_ok _ _ _ _ _ _ Hok)
    as (word & winner & _ & Hwin & _ & -> & ->).
  split.
  - cbn. eapply nth_error_In; eassumption.
  - intros to value [H|[H|[]]]; [|discriminate].
    injection H as <- <-. split; reflexivity.
Qed.

Lemma fulfillRandomWords_winner_is_player_witness :
  In (s_recentWinner (lottery Example.settled)) (s_players (lottery Example.requested)) /\
  forall to value,
    In (CallValue to value) [CallValue 13 40; Emit (WinnerPicked 13)] ->
    to = s_recentWinner (lottery Example.settled) /\
    value = this_balance (lottery Example.requested).
Proof.
  apply (fulfillRandomWords_winner_is_player (Example.env 200 99 0) 1 [42]
           (lottery Example.requested) (lottery Example.settled)
           [CallValue 13 40; Emit (WinnerPicked 13)]).
  vm_compute. reflexivity.
Defined.

(** X7. [fulfillRandomWords] has exactly these outcomes: with no random
    word it panics with an out-of-bounds read; with a word but no player it
    panics with a division by zero; with a word and players it either
    settles or reverts with [Lottery__TransferFailed].  The read of
    [s_players[indexOfWinner]] is never out of bounds, and every revert
    leaves the storage as it was. *)
Theorem fulfillRandomWords_outcomes env requestId rv s :
  (rv = [] ->
   transact (fulfillRandomWords env requestId rv) s
     = (s, Revert (Panic IndexOutOfBounds))) /\
  (rv <> [] -> s_players s = [] ->
   transact (fulfillRandomWords env requestId rv) s
     = (s, Revert (Panic DivisionByZero))) /\
  (rv <> [] -> s_players s <> [] ->
   (exists s' fx, transact (fulfillRandomWords env requestId rv) s = (s', Ok fx)) \/
   transact (fulfillRandomWords env requestId rv) s
     = (s, Revert Lottery__TransferFailed)).
Proof.
  unfold transact. rewrite fulfillRandomWords_run. split; [|split].
  - intros ->. reflexivity.
  - intros Hrv Hnil. destruct rv as [|word rest]; [contradiction|].
    rewrite Hnil. reflexivity.
  - intros Hrv Hplayers. destruct rv as [|word rest]; [contradiction|].
    assert (Hlen : len (s_players s) <> 0) by (rewrite len_zero; exact Hplayers).
    apply N.eqb_neq in Hlen. rewrite Hlen.
    destruct (winner_index_in_range word _ Hplayers) as [winner ->].
    destruct (call_succeeds env winner (this_balance s)).
    + left. eexists _, _. reflexivity.
    + right. reflexivity.
Qed.

Lemma fulfillRandomWords_outcomes_witness :
  transact (fulfillRandomWords (Example.env 200 99 0) 1 []) (lottery Example.requested)
    = (lottery Example.requested, Revert (Panic IndexOutOfBounds)) /\
  transact (fulfillRandomWords (Example.env 200 99 0) 1 [42]) (lottery Example.deployed)
    = (lottery Example.deployed, Revert (Panic DivisionByZero)) /\
  ((exists s' fx,
      transact (fulfillRandomWords (Example.env_refusing 200) 1 [42])
        (lottery Example.requested) = (s', Ok fx)) \/
   transact (fulfillRandomWords (Example.env_refusing 200) 1 [42])
     (lottery Example.requested)
     = (lottery Example.requested, Revert Lottery__TransferFailed)).
Proof.
  split; [|split].
  - apply (proj1 (fulfillRandomWords_outcomes (Example.env 200 99 0) 1 []
                    (lottery Example.requested))).
    reflexivity.
  - apply (proj1 (proj2 (fulfillRandomWords_outcomes (Example.env 200 99 0) 1 [42]
                           (lottery Example.deployed)))).
    + discriminate.
    + reflexivity.
  - apply (proj2 (proj2 (fulfillRandomWords_outcomes (Example.env_refusing 200) 1 [42]
                           (lottery Example.requested)))).
    + discriminate.
    + vm_compute. discriminate.
Defined.

(** X8. [fulfillRandomWords] reads only the first random word, and only its
    remainder modulo the number of players: two calls whose first words
    agree modulo [s_players.length] have the same outcome, whatever the
    other words are. *)
Theorem fulfillRandomWords_word_mod env r1 r2 word1 word2 rest1 rest2 s
    (Hmod : word1 mod len (s_players s) = word2 mod len (s_players s)) :
  transact (fulfillRandomWords env r1 (word1 :: rest1)) s
  = transact (fulfillRandomWords env r2 (word2 :: rest2)) s.
Proof.
  unfold transact. rewrite !fulfillRandomWords_run, Hmod. reflexivity.
Qed.

Lemma fulfillRandomWords_word_mod_witness :
  transact (fulfillRandomWords (Example.env 200 99 0) 1 [42; 7])
    (lottery Example.requested)
  = transact (fulfillRandomWords (Example.env 200 99 0) 1 [2])
      (lottery Example.requested).
Proof.
  apply (fulfillRandomWords_word_mod (Example.env 200 99 0) 1 1 42 2 [7] []
           (lottery Example.requested)).
  reflexivity.
Defined.



(** X10. While the lottery is [CALCULATING], [performUpkeep] always reverts
    and changes nothing, so no second request can be made before the first
    is fulfilled; unless the clock has gone back the error is
    [Lottery__UpkeepNotNeeded] with the balance, the number of players and
    the state 1. *)
Theorem performUpkeep_while_calculating env w
    (Hcalc : s_lotteryState (lottery w) = CALCULATING) :
  (exists e, transact (performUpkeep env) (lottery w) = (lottery w, Revert e)) /\
  step env PerformUpkeep w = w /\
  (s_lastTimestamp (lottery w) <= block_timestamp env ->
   transact (performUpkeep env) (lottery w)
     = (lottery w,
        Revert (Lottery__UpkeepNotNeeded (this_balance (lottery w))
                  (len (s_players (lottery w))) 1))).
Proof.
  assert (Hrun : transact (performUpkeep env) (lottery w)
                 = (lottery w,
                    Revert (if block_timestamp env <? s_lastTimestamp (lottery w)
                            then Panic ArithmeticOverflow
                            else Lottery__UpkeepNotNeeded (this_balance (lottery w))
                                   (len (s_players (lottery w))) 1))).
  { unfold transact. rewrite performUpkeep_run, checkUpkeep_run, Hcalc.
    destruct (block_timestamp env <? s_lastTimestamp (lottery w)); reflexivity. }
  split; [eexists; exact Hrun|]. split.
  - exact (step_revert env PerformUpkeep w _ Hrun).
  - intros Hle. rewrite Hrun. apply N.ltb_ge in Hle. rewrite Hle. reflexivity.
Qed.

Lemma performUpkeep_while_calculating_witness :
  (exists e,
     transact (performUpkeep (Example.env 300 20 0)) (lottery Example.requested)
       = (lottery Example.requested, Revert e)) /\
  step (Example.env 300 20 0) PerformUpkeep Example.requested = Example.requested /\
  (s_lastTimestamp (lottery Example.requested) <= 300 ->
   transact (performUpkeep (Example.env 300 20 0)) (lottery Example.requested)
     = (lottery Example.requested, Revert (Lottery__UpkeepNotNeeded 40 4 1))).
Proof.
  apply (performUpkeep_while_calculating (Example.env 300 20 0) Example.requested).
  reflexivity.
Defined.

(** ** What a transaction can do *)

(** Every transaction is a revert that changes nothing, or one of three
    successes. *)
Lemma step_outcome env op w :
  step env op w = w \/
  (op = EnterLottery /\
   i_entranceFee (lottery w) <= msg_value env /\
   s_lotteryState (lottery w) = OPEN /\
   step env op w = mkWorld (after_enter env (lottery w))
                     (history w ++ [Emit (LotteryEnter (msg_sender env))])) \/
  (op = PerformUpkeep /\
   s_lotteryState (lottery w) = OPEN /\
   s_players (lottery w) <> [] /\
   s_lastTimestamp (lottery w) <= block_timestamp env /\
   exists request requestId,
     step env op w = mkWorld (set_lotteryState CALCULATING (lottery w))
                       (history w ++ [request; Emit (RequestLotteryWinner requestId)])
     /\ is_request request = true) \/
  (exists requestId rv winner,
     op = FulfillRandomWords requestId rv /\
     In winner (s_players (lottery w)) /\
     step env op w = mkWorld (after_fulfill env winner (lottery w))
                       (history w ++ [CallValue winner (this_balance (lottery w));
                                      Emit (WinnerPicked winner)])).
Proof.
  destruct (transact (run env op) (lottery w)) as [s' [fx|e]] eqn:Hrun.
  2:{ left. pose proof (transact_revert _ _ _ _ Hrun) as ->.
      exact (step_revert env op w e Hrun). }
  right. unfold step. rewrite Hrun. cbn [committed].
  destruct op as [| |requestId rv]; cbn [run] in Hrun.
  - left. destruct (enterLottery_ok _ _ _ _ Hrun) as (Hfee & Hopen & -> & ->).
    repeat split; assumption.
  - right. left.
    destruct (performUpkeep_ok _ _ _ _ Hrun) as (Hopen & Hplayers & -> & ->).
    repeat split; try assumption.
    + unfold transact in Hrun. rewrite performUpkeep_run, checkUpkeep_run in Hrun.
      destruct (block_timestamp env <? s_lastTimestamp (lottery w)) eqn:E;
        [discriminate|]. apply N.ltb_ge in E. exact E.
    + eexists _, _. split; reflexivity.
  - right. right.
    destruct (fulfillRandomWords_ok _ _ _ _ _ _ Hrun)
      as (word & winner & _ & Hwin & _ & -> & ->).
    exists requestId, rv, winner. repeat split.
    eapply nth_error_In; eassumption.
Qed.

Lemma reachable_run_calls calls w : reachable w -> reachable (run_calls calls w).
Proof.
  revert w. induction calls as [|[env op] calls IH]; intros w Hw; cbn.
  - exact Hw.
  - apply IH. apply reachable_step. exact Hw.
Qed.

Lemma entrants_app log fx :
  entrants (log ++ fx) = fold_left entrants_step fx (entrants log).
Proof. unfold entrants. apply fold_left_app. Qed.

Lemma lastWinner_app log fx :
  lastWinner (log ++ fx) = fold_left lastWinner_step fx (lastWinner log).
Proof. unfold lastWinner. apply fold_left_app. Qed.

(** ** Invariants of the reachable states *)

(** X11. In every reachable state the stored players are exactly the
    senders of the [LotteryEnter] events logged since the last
    [WinnerPicked], in order, and [s_recentWinner] is the winner named by
    the last [WinnerPicked] ([address(0)] before the first draw). *)
Theorem storage_matches_log w (Hreach : reachable w) :
  s_players (lottery w) = entrants (history w) /\
  s_recentWinner (lottery w) = lastWinner (history w) /\
  view getRecentWinner (lottery w) = Ok (lastWinner (history w)).
Proof.
  assert (H : s_players (lottery w) = entrants (history w) /\
              s_recentWinner (lottery w) = lastWinner (history w)).
  { induction Hreach as [env vrf fee gasLane subId gasLimit interval | env op w Hw IH].
    - split; reflexivity.
    - destruct IH as [IHp IHw].
      destruct (step_outcome env op w)
        as [-> | [(_ & _ & _ & ->)
               | [(_ & _ & _ & _ & rq & rid & -> & Hrq)
                 | (rid & rv & winner & _ & _ & ->)]]];
        cbn [lottery history]; rewrite ?entrants_app, ?lastWinner_app.
      + split; assumption.
      + cbn. rewrite IHp, IHw. split; reflexivity.
      + destruct rq; try discriminate Hrq. cbn. split; assumption.
      + cbn. split; reflexivity. }
  destruct H as [Hp Hwin]. repeat split; try assumption.
  unfold view, getRecentWinner. run_sol. rewrite Hwin. reflexivity.
Qed.

Lemma storage_matches_log_witness :
  s_players (lottery Example.requested) = entrants (history Example.requested) /\
  s_recentWinner (lottery Example.requested) = lastWinner (history Example.requested) /\
  view getRecentWinner (lottery Example.requested)
    = Ok (lastWinner (history Example.requested)).
Proof.
  apply (storage_matches_log Example.requested). exact Example_requested_reachable.
Defined.



(** X13. At most one request is in flight: in a reachable state
    [performUpkeep] succeeds only when the log shows no pending request, and
    afterwards the pending request is the identifier the coordinator
    returned. *)
Theorem performUpkeep_single_request env w s' fx
    (Hreach : reachable w)
    (Hok : transact (performUpkeep env) (lottery w) = (s', Ok fx)) :
  pendingRequestId (history w) = None /\
  pendingRequestId (history (step env PerformUpkeep w))
    = Some (vrf_requestRandomWords env (i_vrfCoordinator (lottery w))
              (i_gasLane (lottery w)) (i_subscriptionId (lottery w))
              REQUEST_CONFIRMATIONS (i_callbackGasLimit (lottery w)) NUM_WORDS).
Proof.
  destruct (performUpkeep_ok _ _ _ _ Hok) as (Hopen & _ & Hs & Hfx).
  split.
  - destruct (reachable_invariant w Hreach) as [_ [_ Hpending]].
    destruct (pendingRequestId (history w)) as [r|] eqn:E; [|reflexivity].
    assert (Hc : s_lotteryState (lottery w) = CALCULATING)
      by (apply Hpending; discriminate).
    congruence.
  - unfold step. cbn [run]. rewrite Hok. cbn [history committed].
    rewrite pendingRequestId_app, Hfx. reflexivity.
Qed.

Lemma performUpkeep_single_request_witness :
  pendingRequestId (history Example.entered4) = None /\
  pendingRequestId (history (step (Example.env 100 20 0) PerformUpkeep Example.entered4))
    = Some (vrf_requestRandomWords (Example.env 100 20 0)
              (i_vrfCoordinator (lottery Example.entered4))
              (i_gasLane (lottery Example.entered4))
              (i_subscriptionId (lottery Example.entered4))
              REQUEST_CONFIRMATIONS
              (i_callbackGasLimit (lottery Example.entered4)) NUM_WORDS).
Proof.
  apply (performUpkeep_single_request (Example.env 100 20 0) Example.entered4
           (lottery Example.requested)
           [RequestRandomWords 99 5 1 3 500000 1; Emit (RequestLotteryWinner 1)]).
  - unfold Example.entered4, Example.entered1, Example.deployed.
    repeat apply reachable_step. apply reachable_init.
  - vm_compute. reflexivity.
Defined.

(** ** Configuration, deployment and the clock *)

Lemma step_config env op w : config (lottery (step env op w)) = config (lottery w).
Proof.
  destruct (step_outcome env op w)
    as [-> | [(_ & _ & _ & ->)
           | [(_ & _ & _ & _ & rq & rid & -> & _)
             | (rid & rv & winner & _ & _ & ->)]]]; reflexivity.
Qed.

Lemma run_calls_config calls w :
  config (lottery (run_calls calls w)) = config (lottery w).
Proof.
  revert w. induction calls as [|[env op] calls IH]; intros w; cbn.
  - reflexivity.
  - rewrite IH. apply step_config.
Qed.

(** X14. Whatever calls follow the deployment, the configuration getters
    keep returning the constructor arguments; [getSubscriptionId] returns
    the argument reduced to 64 bits, which is the argument itself exactly
    when it is below [2^64]. *)
Theorem configuration_is_immutable calls env vrf fee gasLane subId gasLimit interval :
  let w := run_calls calls
             (mkWorld (constructor env vrf fee gasLane subId gasLimit interval) []) in
  view getEntranceFee (lottery w) = Ok fee /\
  view getInterval (lottery w) = Ok interval /\
  view getGasLane (lottery w) = Ok gasLane /\
  view getCallbackGasLimit (lottery w) = Ok gasLimit /\
  view getVRFCoordinatorV2Address (lottery w) = Ok vrf /\
  view getSubscriptionId (lottery w) = Ok (subId mod 2 ^ 64) /\
  (view getSubscriptionId (lottery w) = Ok subId <-> subId < 2 ^ 64).
Proof.
  intros w.
  pose proof (run_calls_config calls
                (mkWorld (constructor env vrf fee gasLane subId gasLimit interval) []))
    as Hc.
  fold w in Hc. unfold config in Hc. cbn in Hc.
  injection Hc as Hfee Hvrf Hlane Hsub Hlimit Hint.
  unfold view, getEntranceFee, getInterval, getGasLane, getCallbackGasLimit,
    getVRFCoordinatorV2Address, getSubscriptionId, gets. cbn [this].
  rewrite Hfee, Hvrf, Hlane, Hsub, Hlimit, Hint. unfold truncate.
  repeat split.
  - intros [= H]. rewrite <- H. apply N.mod_upper_bound. discriminate.
  - intros H. rewrite N.mod_small by exact H. reflexivity.
Qed.

(** X15. A freshly deployed lottery is [OPEN], has no player and no recent
    winner, and its last timestamp is the time of deployment.  The only
    transaction it accepts is [enterLottery]: [performUpkeep] reverts with
    [Lottery__UpkeepNotNeeded(0, 0, 0)] and [fulfillRandomWords] panics. *)
Theorem fresh_lottery env0 vrf fee gasLane subId gasLimit interval :
  let s := constructor env0 vrf fee gasLane subId gasLimit interval in
  view getLotteryState s = Ok OPEN /\
  view getNumberOfPlayers s = Ok 0 /\
  view getRecentWinner s = Ok 0 /\
  view getLatestTimestamp s = Ok (block_timestamp env0) /\
  (forall env op s' fx, transact (run env op) s = (s', Ok fx) -> op = EnterLottery) /\
  (forall env, block_timestamp env0 <= block_timestamp env ->
     transact (performUpkeep env) s = (s, Revert (Lottery__UpkeepNotNeeded 0 0 0))) /\
  (forall env requestId rv,
     exists code,
       transact (fulfillRandomWords env requestId rv) s = (s, Revert (Panic code))).
Proof.
  intros s. repeat split.
  - intros env op s' fx Hok. destruct op as [| |requestId rv]; cbn [run] in Hok.
    + reflexivity.
    + destruct (performUpkeep_ok _ _ _ _ Hok) as (_ & Hplayers & _).
      exfalso. apply Hplayers. reflexivity.
    + destruct (fulfillRandomWords_ok _ _ _ _ _ _ Hok) as (word & winner & _ & Hwin & _).
      apply nth_error_nonempty in Hwin. exfalso. apply Hwin. reflexivity.
  - intros env Hle. unfold transact. rewrite performUpkeep_run, checkUpkeep_run.
    subst s. cbn [constructor s_lastTimestamp]. apply N.ltb_ge in Hle. rewrite Hle.
    cbn. rewrite andb_false_r. reflexivity.
  - intros env requestId rv. unfold transact. rewrite fulfillRandomWords_run.
    destruct rv as [|word rest]; eexists; reflexivity.
Qed.

Lemma fresh_lottery_witness :
  transact (performUpkeep (Example.env 100 20 0)) (lottery Example.deployed)
  = (lottery Example.deployed, Revert (Lottery__UpkeepNotNeeded 0 0 0)).
Proof.
  apply (proj1 (proj2 (proj2 (proj2 (proj2 (proj2
           (fresh_lottery (Example.env 0 10 0) 99 10 5 1 500000 30)))))))
    with (env := Example.env 100 20 0).
  vm_compute. discriminate.
Defined.

Lemma step_lastTimestamp env op w :
  s_lastTimestamp (lottery (step env op w)) = s_lastTimestamp (lottery w) \/
  s_lastTimestamp (lottery (step env op w)) = block_timestamp env.
Proof.
  destruct (step_outcome env op w)
    as [-> | [(_ & _ & _ & ->)
           | [(_ & _ & _ & _ & rq & rid & -> & _)
             | (rid & rv & winner & _ & _ & ->)]]];
    [left | left | left | right]; reflexivity.
Qed.

Lemma clock_end_ge t calls : clock_ok t calls -> t <= clock_end t calls.
Proof.
  revert t. induction calls as [|[env op] calls IH]; intros t; cbn.
  - lia.
  - intros [Hle Hrest]. specialize (IH _ Hrest). lia.
Qed.

(** X16. On a chain whose block timestamps never go back,
    [s_lastTimestamp] is never in the future: after any sequence of calls it
    is at most the time of the last call.  Hence the checked subtraction of
    [checkUpkeep] cannot overflow: at any later time [checkUpkeep] returns
    an answer instead of panicking. *)
Theorem lastTimestamp_not_in_future calls w t
    (Hlast : s_lastTimestamp (lottery w) <= t)
    (Hclock : clock_ok t calls) :
  let w' := run_calls calls w in
  s_lastTimestamp (lottery w') <= clock_end t calls /\
  forall env, clock_end t calls <= block_timestamp env ->
    exists b, view (checkUpkeep env) (lottery w') = Ok b.
Proof.
  cbv zeta.
  assert (H : s_lastTimestamp (lottery (run_calls calls w)) <= clock_end t calls).
  { revert w t Hlast Hclock.
    induction calls as [|[env op] calls IH]; intros w t Hlast Hclock; cbn.
    - exact Hlast.
    - destruct Hclock as [Hle Hrest]. apply IH; [|exact Hrest].
      destruct (step_lastTimestamp env op w) as [-> | ->]; lia. }
  split; [exact H|].
  intros env Henv. unfold view. rewrite checkUpkeep_run.
  assert (Hnb : (block_timestamp env <? s_lastTimestamp (lottery (run_calls calls w)))
                = false) by (apply N.ltb_ge; lia).
  rewrite Hnb. eexists. reflexivity.
Qed.

Lemma lastTimestamp_not_in_future_witness :
  let calls := [(Example.env 1 11 10, EnterLottery);
                (Example.env 100 20 0, PerformUpkeep);
                (Example.env 200 99 0, FulfillRandomWords 1 [42])] in
  let w' := run_calls calls Example.deployed in
  s_lastTimestamp (lottery w') <= clock_end 0 calls /\
  forall env, clock_end 0 calls <= block_timestamp env ->
    exists b, view (checkUpkeep env) (lottery w') = Ok b.
Proof.
  apply (lastTimestamp_not_in_future
           [(Example.env 1 11 10, EnterLottery);
            (Example.env 100 20 0, PerformUpkeep);
            (Example.env 200 99 0, FulfillRandomWords 1 [42])]
           Example.deployed 0).
  - vm_compute. discriminate.
  - cbn. repeat split; lia.
Defined.




